(** * TimeTracker: timeout checking over [timeval] checkpoints

    A shallow embedding of [TimeTracker.h].  The class keeps two [timeval]
    fields, [timeout] and [now]; its methods are embedded as computations in a
    small state monad over that pair of fields.

    Integer model (LP64, the ABI where [timeval] is [{long; long}]):
    [time_t] and [suseconds_t] are 64-bit signed, [unsigned int] and
    [uint32_t] are 32-bit unsigned.  Values are kept in [Z].  Signed
    arithmetic is written with [wrap_long]: overflow of a signed operand is
    undefined in C++, and the embedding gives it the value produced by
    two's-complement hardware.  Lemmas that need exact arithmetic carry an
    explicit no-overflow hypothesis. *)

From Stdlib Require Import ZArith Lia List Bool Sorted.
Import ListNotations.

Local Open Scope Z_scope.

(** ** Machine integers *)

Module MachineInt.

Definition LONG_MIN : Z := - 2 ^ 63.
Definition LONG_MAX : Z := 2 ^ 63 - 1.
Definition UINT32_MAX : Z := 2 ^ 32 - 1.

(** Reduction of a mathematical integer to a 64-bit signed value. *)
Definition wrap_long (z : Z) : Z := (z + 2 ^ 63) mod 2 ^ 64 - 2 ^ 63.

(** Conversion to [uint32_t]. *)
Definition wrap_u32 (z : Z) : Z := z mod 2 ^ 32.

Definition in_long (z : Z) : Prop := LONG_MIN <= z <= LONG_MAX.

End MachineInt.

Import MachineInt.

(** ** [struct timeval] *)

Record timeval : Type := mk_timeval { tv_sec : Z; tv_usec : Z }.

Definition timeval_in_range (a : timeval) : Prop :=
  in_long (tv_sec a) /\ in_long (tv_usec a).

(** [static constexpr unsigned int MICROSECONDS = 1000000;] *)
Definition MICROSECONDS : Z := 1000000.

(** ** The private helpers *)

(** [compare_timevals]: seconds first, then microseconds. *)
Definition compare_timevals (left right : timeval) : Z :=
  if tv_sec left <? tv_sec right then -1
  else if tv_sec left >? tv_sec right then 1
  else if tv_usec left <? tv_usec right then -1
  else if tv_usec left >? tv_usec right then 1
  else 0.

(** [add_timevals]: both fields are summed, then one carry is moved from the
    microseconds into the seconds.  [tv_usec >= MICROSECONDS] compares a
    [long] with an [unsigned int], which on LP64 is a signed comparison. *)
Definition add_timevals (left right : timeval) : timeval :=
  let sec := wrap_long (tv_sec left + tv_sec right) in
  let usec := wrap_long (tv_usec left + tv_usec right) in
  if usec >=? MICROSECONDS
  then mk_timeval (wrap_long (sec + 1)) (wrap_long (usec - MICROSECONDS))
  else mk_timeval sec usec.

(** ** [std::chrono::system_clock::time_point]

    The class never inspects a time point: it only passes it to
    [std::chrono::system_clock::to_time_t].  A time point is therefore
    represented by the whole-second [time_t] which that conversion returns. *)
Record time_point : Type := mk_time_point { to_time_t : Z }.

(** ** The object state and its monad *)

(** The two data members, in declaration order. *)
Record TimeTracker : Type := mk_TimeTracker { timeout : timeval; now : timeval }.

(** A member function is a computation reading and writing [*this]. *)
Definition M (A : Type) : Type := TimeTracker -> A * TimeTracker.

Definition ret {A : Type} (a : A) : M A := fun this => (a, this).

Definition bind {A B : Type} (m : M A) (k : A -> M B) : M B :=
  fun this => let (a, this') := m this in k a this'.

Notation "x <- m ;; k" := (bind m (fun x => k))
  (at level 61, m at next level, right associativity).
Notation "m ;; k" := (bind m (fun _ => k))
  (at level 61, right associativity).

(** Reads and writes of the members. *)
Definition load_timeout : M timeval := fun this => (timeout this, this).
Definition load_now : M timeval := fun this => (now this, this).
Definition store_timeout (v : timeval) : M unit :=
  fun this => (tt, mk_TimeTracker v (now this)).
Definition store_now (v : timeval) : M unit :=
  fun this => (tt, mk_TimeTracker (timeout this) v).

Definition returned {A : Type} (r : A * TimeTracker) : A := fst r.
Definition state_after {A : Type} (r : A * TimeTracker) : TimeTracker := snd r.

(** ** Constructors *)

(** [TimeTracker()] *)
Definition TimeTracker_default : TimeTracker :=
  mk_TimeTracker (mk_timeval 0 0) (mk_timeval 0 0).

(** [explicit TimeTracker(timeval timeout)] *)
Definition TimeTracker_timeval (timeout_arg : timeval) : TimeTracker :=
  mk_TimeTracker timeout_arg (mk_timeval 0 0).

(** [explicit TimeTracker(uint32_t timeout_us)]: unsigned division. *)
Definition TimeTracker_u32 (timeout_us : Z) : TimeTracker :=
  mk_TimeTracker
    (mk_timeval (timeout_us / MICROSECONDS) (timeout_us mod MICROSECONDS))
    (mk_timeval 0 0).

(** [TimeTracker(time_t timeout_us, timeval now)]: [MICROSECONDS] is converted
    to [long], so [/] and [%] truncate towards zero. *)
Definition TimeTracker_us_now (timeout_us : Z) (now_arg : timeval) : TimeTracker :=
  mk_TimeTracker
    (mk_timeval (Z.quot timeout_us MICROSECONDS) (Z.rem timeout_us MICROSECONDS))
    now_arg.

(** [TimeTracker(time_t timeout_us, std::chrono::system_clock::time_point now)] *)
Definition TimeTracker_us_time_point (timeout_us : Z) (now_arg : time_point)
  : TimeTracker :=
  mk_TimeTracker
    (mk_timeval (Z.quot timeout_us MICROSECONDS) (Z.rem timeout_us MICROSECONDS))
    (mk_timeval (to_time_t now_arg) 0).

(** ** Accessors *)

Definition set_now (current_time : timeval) : M unit := store_now current_time.

Definition set_now_time_point (current_time : time_point) : M unit :=
  store_now (mk_timeval (to_time_t current_time) 0).

Definition get_now : M timeval := load_now.

Definition set_timeout (timeout_us : Z) : M unit :=
  store_timeout
    (mk_timeval (Z.quot timeout_us MICROSECONDS) (Z.rem timeout_us MICROSECONDS)).

Definition get_timeout : M timeval := load_timeout.

(** [return timeout.tv_sec * MICROSECONDS + timeout.tv_usec;] is evaluated in
    [long] and converted to the [uint32_t] return type. *)
Definition get_timeout_us : M Z :=
  t <- load_timeout ;;
  ret (wrap_u32 (wrap_long (wrap_long (tv_sec t * MICROSECONDS) + tv_usec t))).

(** ** The timeout checks *)

(** [bool is_timed_out(timeval current_time, timeval timeout)] *)
Definition is_timed_out (current_time timeout_arg : timeval) : M bool :=
  n <- load_now ;;
  if compare_timevals n current_time >? 0 then ret false
  else
    n <- load_now ;;
    let deadline := add_timevals n timeout_arg in
    store_now current_time ;;
    n' <- load_now ;;
    ret (compare_timevals n' deadline >? 0).

(** [bool is_timed_out(timeval current_time)] *)
Definition is_timed_out_default (current_time : timeval) : M bool :=
  t <- load_timeout ;;
  is_timed_out current_time t.

(** [bool is_timed_out_and_update_if_timed_out(timeval current_time)] *)
Definition is_timed_out_and_update_if_timed_out (current_time : timeval)
  : M bool :=
  n <- load_now ;;
  if compare_timevals n current_time >? 0 then ret false
  else
    n <- load_now ;;
    t <- load_timeout ;;
    let deadline := add_timevals n t in
    let result := compare_timevals current_time deadline >? 0 in
    (if result then store_now current_time else ret tt) ;;
    ret result.

(** [bool is_timed_out_and_update_if_timed_out(time_point current_time_input)] *)
Definition is_timed_out_and_update_if_timed_out_time_point
  (current_time_input : time_point) : M bool :=
  let current_time := mk_timeval (to_time_t current_time_input) 0 in
  is_timed_out_and_update_if_timed_out current_time.

(** Overload resolution for [is_timed_out]: with or without the second
    argument. *)
Definition is_timed_out_overload
  (current_time : timeval) (timeout_override : option timeval) : M bool :=
  match timeout_override with
  | Some t => is_timed_out current_time t
  | None => is_timed_out_default current_time
  end.

(** ** Sequences of timeout checks *)

Inductive call : Type :=
| Call_is_timed_out (current_time timeout_arg : timeval)
| Call_is_timed_out_default (current_time : timeval)
| Call_is_timed_out_and_update (current_time : timeval)
| Call_is_timed_out_and_update_time_point (current_time_input : time_point).

Definition exec_call (c : call) : M bool :=
  match c with
  | Call_is_timed_out ct t => is_timed_out ct t
  | Call_is_timed_out_default ct => is_timed_out_default ct
  | Call_is_timed_out_and_update ct => is_timed_out_and_update_if_timed_out ct
  | Call_is_timed_out_and_update_time_point tp =>
      is_timed_out_and_update_if_timed_out_time_point tp
  end.

(** The checkpoint before the first call and after each call, in order. *)
Fixpoint checkpoints (cs : list call) (this : TimeTracker) : list timeval :=
  now this ::
  match cs with
  | [] => []
  | c :: cs' => checkpoints cs' (state_after (exec_call c this))
  end.

(** ** Vocabulary of the specification *)

(** The flattened microsecond value of a time value, as an exact integer. *)
Definition flatten (a : timeval) : Z := tv_sec a * MICROSECONDS + tv_usec a.

(** The data-model invariant on the microsecond field. *)
Definition usec_normal (a : timeval) : Prop := 0 <= tv_usec a < MICROSECONDS.

Definition nonneg_fields (a : timeval) : Prop := 0 <= tv_sec a /\ 0 <= tv_usec a.

(** The carry which [add_timevals] moves into the seconds. *)
Definition add_carry (a b : timeval) : Z :=
  if tv_usec a + tv_usec b >=? MICROSECONDS then 1 else 0.

(** No intermediate value of [add_timevals a b] leaves the range of [long]. *)
Definition add_no_overflow (a b : timeval) : Prop :=
  in_long (tv_sec a + tv_sec b) /\
  in_long (tv_usec a + tv_usec b) /\
  in_long (tv_sec a + tv_sec b + add_carry a b).

(** The strict order induced by the comparison. *)
Definition timeval_lt (a b : timeval) : Prop := compare_timevals a b = -1.

(** ** Runs of timeout checks *)

(** The time value a call hands to the guard; a time point has already been
    cut to whole seconds there. *)
Definition sample_of (c : call) : timeval :=
  match c with
  | Call_is_timed_out ct _ => ct
  | Call_is_timed_out_default ct => ct
  | Call_is_timed_out_and_update ct => ct
  | Call_is_timed_out_and_update_time_point tp => mk_timeval (to_time_t tp) 0
  end.

(** The calls that go through [is_timed_out]. *)
Definition always_advancing (c : call) : Prop :=
  match c with
  | Call_is_timed_out _ _ | Call_is_timed_out_default _ => True
  | _ => False
  end.

(** The calls executed in order on one object, with what each returned. *)
Fixpoint run_calls (cs : list call) : M (list bool) :=
  match cs with
  | [] => ret []
  | c :: cs' => r <- exec_call c ;; rs <- run_calls cs' ;; ret (r :: rs)
  end.

(** The later of two time values in the order of [compare_timevals]. *)
Definition timeval_max (a b : timeval) : timeval :=
  if compare_timevals a b >? 0 then a else b.

(** * Properties *)

(** ** Machine integers *)

Lemma wrap_long_id (z : Z) : in_long z -> wrap_long z = z.
Proof.
  unfold in_long, LONG_MIN, LONG_MAX, wrap_long. intros Hz.
  rewrite Z.mod_small; lia.
Qed.

Lemma wrap_long_range (z : Z) : in_long (wrap_long z).
Proof.
  unfold in_long, LONG_MIN, LONG_MAX, wrap_long.
  pose proof (Z.mod_pos_bound (z + 2 ^ 63) (2 ^ 64) ltac:(lia)). lia.
Qed.

Lemma wrap_u32_id (z : Z) : 0 <= z <= UINT32_MAX -> wrap_u32 z = z.
Proof.
  unfold UINT32_MAX, wrap_u32. intros Hz. apply Z.mod_small. lia.
Qed.

(** ** Comparison *)

Lemma compare_timevals_cases (a b : timeval) :
  (compare_timevals a b = -1 /\
     (tv_sec a < tv_sec b \/ tv_sec a = tv_sec b /\ tv_usec a < tv_usec b)) \/
  (compare_timevals a b = 0 /\ tv_sec a = tv_sec b /\ tv_usec a = tv_usec b) \/
  (compare_timevals a b = 1 /\
     (tv_sec a > tv_sec b \/ tv_sec a = tv_sec b /\ tv_usec a > tv_usec b)).
Proof.
  unfold compare_timevals.
  destruct (tv_sec a <? tv_sec b) eqn:E1; [left; lia|].
  destruct (tv_sec a >? tv_sec b) eqn:E2; [right; right; lia|].
  destruct (tv_usec a <? tv_usec b) eqn:E3; [left; lia|].
  destruct (tv_usec a >? tv_usec b) eqn:E4; [right; right; lia|].
  right; left; lia.
Qed.

Ltac compare_cases a b :=
  let H := fresh "Hcmp" in
  destruct (compare_timevals_cases a b) as [[H ?]|[[H ?]|[H ?]]];
  rewrite ?H in *.

Lemma compare_timevals_refl (a : timeval) : compare_timevals a a = 0.
Proof. compare_cases a a; lia. Qed.

Lemma compare_timevals_antisym (a b : timeval) :
  compare_timevals b a = - compare_timevals a b.
Proof. compare_cases a b; compare_cases b a; lia. Qed.

Lemma compare_timevals_eq (a b : timeval) : compare_timevals a b = 0 <-> a = b.
Proof.
  split.
  - intros H. compare_cases a b; try lia.
    destruct a, b; simpl in *. f_equal; lia.
  - intros ->. apply compare_timevals_refl.
Qed.

Lemma compare_timevals_le_trans (a b c : timeval) :
  compare_timevals a b <= 0 -> compare_timevals b c <= 0 ->
  compare_timevals a c <= 0.
Proof.
  intros Hab Hbc.
  compare_cases a b; compare_cases b c; compare_cases a c; lia.
Qed.

Lemma flatten_order (a b : timeval) :
  usec_normal a -> usec_normal b ->
  (flatten a < flatten b <->
     tv_sec a < tv_sec b \/ tv_sec a = tv_sec b /\ tv_usec a < tv_usec b).
Proof.
  unfold usec_normal, flatten, MICROSECONDS. intros Ha Hb. split.
  - intros H.
    destruct (Z_lt_le_dec (tv_sec a) (tv_sec b)); [left; assumption|].
    destruct (Z.eq_dec (tv_sec a) (tv_sec b)); [right; lia|]. lia.
  - intros [H|[H1 H2]]; lia.
Qed.

(** C6.  On time values whose microsecond field lies in [0, 1000000),
    [compare_timevals] returns -1, 0 or 1 exactly when the flattened value of
    the left operand is less than, equal to or greater than that of the right
    one; the induced order is a strict total order: irreflexive, transitive
    and trichotomous, with 0 returned only for equal operands. *)
Theorem compare_timevals_strict_total_order (a b c : timeval) :
  usec_normal a -> usec_normal b -> usec_normal c ->
  (compare_timevals a b = -1 <-> flatten a < flatten b) /\
  (compare_timevals a b = 0 <-> flatten a = flatten b) /\
  (compare_timevals a b = 1 <-> flatten a > flatten b) /\
  (compare_timevals a b = 0 <-> a = b) /\
  ~ timeval_lt a a /\
  (timeval_lt a b -> timeval_lt b c -> timeval_lt a c) /\
  ((timeval_lt a b /\ a <> b /\ ~ timeval_lt b a) \/
   (~ timeval_lt a b /\ a = b /\ ~ timeval_lt b a) \/
   (~ timeval_lt a b /\ a <> b /\ timeval_lt b a)).
Proof.
  intros Ha Hb Hc.
  pose proof (flatten_order a b Ha Hb) as Hab.
  pose proof (flatten_order b a Hb Ha) as Hba.
  pose proof (compare_timevals_eq a b) as Heq.
  assert (Htri : compare_timevals a b = -1 /\ flatten a < flatten b \/
                 compare_timevals a b = 0 /\ flatten a = flatten b \/
                 compare_timevals a b = 1 /\ flatten b < flatten a).
  { compare_cases a b.
    - left. split; [reflexivity | apply Hab; assumption].
    - right; left. split; [reflexivity | unfold flatten; lia].
    - right; right. split; [reflexivity | apply Hba; lia]. }
  unfold timeval_lt.
  split; [|split; [|split; [|split; [|split; [|split]]]]].
  - split; intros H; destruct Htri as [[? ?]|[[? ?]|[? ?]]]; lia.
  - split; intros H; destruct Htri as [[? ?]|[[? ?]|[? ?]]]; lia.
  - split; intros H; destruct Htri as [[? ?]|[[? ?]|[? ?]]]; lia.
  - apply Heq.
  - rewrite compare_timevals_refl. lia.
  - intros H1 H2. compare_cases a b; compare_cases b c; compare_cases a c; lia.
  - rewrite (compare_timevals_antisym a b).
    destruct Htri as [[E ?]|[[E ?]|[E ?]]]; rewrite E.
    + left. split; [reflexivity|]. split; [|lia].
      intros Eab. apply Heq in Eab. lia.
    + right; left. split; [lia|]. split; [apply Heq, E | lia].
    + right; right. split; [lia|]. split; [|reflexivity].
      intros Eab. apply Heq in Eab. lia.
Qed.

Lemma compare_timevals_strict_total_order_witness :
  let a := mk_timeval 10 500000 in
  let b := mk_timeval 11 400000 in
  let c := mk_timeval 11 500000 in
  (usec_normal a /\ usec_normal b /\ usec_normal c) /\
  compare_timevals a b = -1 /\ flatten a < flatten b /\ timeval_lt a c.
Proof.
  intros a b c.
  assert (Ha : usec_normal a) by (unfold usec_normal, MICROSECONDS; simpl; lia).
  assert (Hb : usec_normal b) by (unfold usec_normal, MICROSECONDS; simpl; lia).
  assert (Hc : usec_normal c) by (unfold usec_normal, MICROSECONDS; simpl; lia).
  destruct (compare_timevals_strict_total_order a b c Ha Hb Hc)
    as (Hlt & _ & _ & _ & _ & Htrans & _).
  split; [auto|].
  split; [reflexivity|].
  split; [apply Hlt; reflexivity|].
  apply Htrans; reflexivity.
Defined.

(** ** Addition *)

(** Without overflow the sum is the field-wise sum with one carry. *)
Lemma add_timevals_exact (a b : timeval) :
  add_no_overflow a b ->
  add_timevals a b =
    mk_timeval (tv_sec a + tv_sec b + add_carry a b)
               (tv_usec a + tv_usec b - add_carry a b * MICROSECONDS).
Proof.
  unfold add_no_overflow, add_carry, add_timevals.
  intros (Hs & Hu & Hc).
  rewrite (wrap_long_id _ Hs), (wrap_long_id _ Hu).
  destruct (tv_usec a + tv_usec b >=? MICROSECONDS) eqn:E.
  - rewrite (wrap_long_id _ Hc). f_equal.
    apply wrap_long_id.
    unfold in_long, LONG_MIN, LONG_MAX, MICROSECONDS in *. lia.
  - f_equal; lia.
Qed.

Lemma add_timevals_flatten (a b : timeval) :
  add_no_overflow a b ->
  flatten (add_timevals a b) = flatten a + flatten b.
Proof.
  intros H. rewrite (add_timevals_exact a b H).
  unfold flatten. simpl. lia.
Qed.

Lemma add_timevals_zero (a : timeval) :
  timeval_in_range a -> tv_usec a < MICROSECONDS ->
  add_timevals a (mk_timeval 0 0) = a.
Proof.
  intros [Hs Hu] Hlt.
  rewrite add_timevals_exact.
  - unfold add_carry. simpl.
    replace (tv_usec a + 0 >=? MICROSECONDS) with false by lia.
    destruct a; simpl. f_equal; lia.
  - unfold add_no_overflow, add_carry. simpl.
    replace (tv_usec a + 0 >=? MICROSECONDS) with false by lia.
    rewrite !Z.add_0_r. auto.
Qed.

(** C5, amended.  For time values [a], [b] with non-negative fields and
    microsecond fields below 1000000, whose seconds sum (with the carry out
    of the microseconds) does not exceed the largest [time_t],
    [add_timevals a b] has its microsecond field in [0, 1000000) and its
    flattened value is the exact sum of the flattened values of [a] and [b]. *)
Theorem add_timevals_normalized_sum (a b : timeval) :
  nonneg_fields a -> nonneg_fields b ->
  tv_usec a < MICROSECONDS -> tv_usec b < MICROSECONDS ->
  tv_sec a + tv_sec b + add_carry a b <= LONG_MAX ->
  0 <= tv_usec (add_timevals a b) < MICROSECONDS /\
  flatten (add_timevals a b) = flatten a + flatten b.
Proof.
  intros [Hsa Hua] [Hsb Hub] Hla Hlb Hmax.
  assert (Hno : add_no_overflow a b).
  { unfold add_no_overflow, in_long, LONG_MIN, LONG_MAX, MICROSECONDS in *.
    assert (0 <= add_carry a b <= 1)
      by (unfold add_carry; destruct (_ >=? _); lia).
    lia. }
  split; [|apply add_timevals_flatten; assumption].
  rewrite (add_timevals_exact a b Hno). simpl.
  unfold add_carry, MICROSECONDS in *.
  destruct (tv_usec a + tv_usec b >=? 1000000) eqn:E; lia.
Qed.

Lemma add_timevals_normalized_sum_witness :
  let a := mk_timeval 10 500000 in
  let b := mk_timeval 1 600000 in
  (nonneg_fields a /\ nonneg_fields b /\
   tv_usec a < MICROSECONDS /\ tv_usec b < MICROSECONDS /\
   tv_sec a + tv_sec b + add_carry a b <= LONG_MAX) /\
  add_timevals a b = mk_timeval 12 100000 /\
  0 <= tv_usec (add_timevals a b) < MICROSECONDS /\
  flatten (add_timevals a b) = flatten a + flatten b.
Proof.
  intros a b.
  assert (Ha : nonneg_fields a) by (unfold nonneg_fields; simpl; lia).
  assert (Hb : nonneg_fields b) by (unfold nonneg_fields; simpl; lia).
  assert (Hla : tv_usec a < MICROSECONDS) by reflexivity.
  assert (Hlb : tv_usec b < MICROSECONDS) by reflexivity.
  assert (Hmax : tv_sec a + tv_sec b + add_carry a b <= LONG_MAX)
    by (vm_compute; discriminate).
  split; [auto 6|].
  split; [reflexivity|].
  exact (add_timevals_normalized_sum a b Ha Hb Hla Hlb Hmax).
Defined.

(** C5 as stated fails at the top of the [time_t] range: both operands have
    non-negative fields and microseconds below 1000000, yet the seconds sum
    wraps and the flattened result is not the sum of the flattened operands. *)
Lemma add_timevals_sum_overflow :
  let a := mk_timeval LONG_MAX 0 in
  let b := mk_timeval 1 0 in
  timeval_in_range a /\ timeval_in_range b /\
  nonneg_fields a /\ nonneg_fields b /\
  tv_usec a < MICROSECONDS /\ tv_usec b < MICROSECONDS /\
  add_timevals a b = mk_timeval LONG_MIN 0 /\
  ~ (0 <= tv_usec (add_timevals a b) < MICROSECONDS /\
     flatten (add_timevals a b) = flatten a + flatten b).
Proof.
  intros a b.
  assert (Hadd : add_timevals a b = mk_timeval LONG_MIN 0) by reflexivity.
  repeat split; try (vm_compute; discriminate); try exact Hadd.
  rewrite Hadd. intros [_ H]. vm_compute in H. discriminate.
Qed.

(** ** The timeout checks, as state transformers *)

Ltac unfold_methods :=
  unfold is_timed_out_overload, is_timed_out_default,
    is_timed_out_and_update_if_timed_out_time_point,
    is_timed_out_and_update_if_timed_out, is_timed_out,
    get_timeout_us, get_timeout, set_timeout, get_now, set_now,
    set_now_time_point, bind, ret,
    load_now, load_timeout, store_now, store_timeout,
    returned, state_after in *;
  cbn beta iota zeta delta [fst snd now timeout tv_sec tv_usec] in *.

(** The guard rejects the sample: nothing happens. *)
Lemma is_timed_out_guard (this : TimeTracker) (current_time timeout_arg : timeval) :
  compare_timevals (now this) current_time > 0 ->
  is_timed_out current_time timeout_arg this = (false, this).
Proof.
  intros H. unfold_methods.
  replace (compare_timevals (now this) current_time >? 0) with true by lia.
  reflexivity.
Qed.

(** The guard accepts the sample: the checkpoint advances and the new
    checkpoint is compared with the deadline taken from the old one. *)
Lemma is_timed_out_advance (this : TimeTracker) (current_time timeout_arg : timeval) :
  compare_timevals (now this) current_time <= 0 ->
  is_timed_out current_time timeout_arg this =
    (compare_timevals current_time (add_timevals (now this) timeout_arg) >? 0,
     mk_TimeTracker (timeout this) current_time).
Proof.
  intros H. unfold_methods.
  replace (compare_timevals (now this) current_time >? 0) with false by lia.
  reflexivity.
Qed.

Lemma is_timed_out_default_unfold (this : TimeTracker) (current_time : timeval) :
  is_timed_out_default current_time this =
    is_timed_out current_time (timeout this) this.
Proof. reflexivity. Qed.

Lemma update_if_timed_out_guard (this : TimeTracker) (current_time : timeval) :
  compare_timevals (now this) current_time > 0 ->
  is_timed_out_and_update_if_timed_out current_time this = (false, this).
Proof.
  intros H. unfold_methods.
  replace (compare_timevals (now this) current_time >? 0) with true by lia.
  reflexivity.
Qed.

Lemma update_if_timed_out_pass (this : TimeTracker) (current_time : timeval) :
  compare_timevals (now this) current_time <= 0 ->
  is_timed_out_and_update_if_timed_out current_time this =
    if compare_timevals current_time (add_timevals (now this) (timeout this)) >? 0
    then (true, mk_TimeTracker (timeout this) current_time)
    else (false, this).
Proof.
  intros H. unfold_methods.
  replace (compare_timevals (now this) current_time >? 0) with false by lia.
  destruct (compare_timevals current_time _ >? 0); reflexivity.
Qed.

Lemma guard_dec (a b : timeval) :
  {compare_timevals a b > 0} + {compare_timevals a b <= 0}.
Proof. destruct (Z_gt_le_dec (compare_timevals a b) 0); auto. Qed.

(** C1.  When the checkpoint is not after [current_time], [is_timed_out]
    (with an explicit timeout or with the configured one) takes the deadline
    to be the old checkpoint plus the effective timeout, sets the checkpoint
    to [current_time], leaves the timeout alone, and returns [true] exactly
    when the updated checkpoint is strictly greater than the deadline. *)
Theorem is_timed_out_checks_and_advances
  (this : TimeTracker) (current_time : timeval) (timeout_override : option timeval) :
  compare_timevals (now this) current_time <= 0 ->
  let effective :=
    match timeout_override with Some t => t | None => timeout this end in
  let deadline := add_timevals (now this) effective in
  let r := is_timed_out_overload current_time timeout_override this in
  now (state_after r) = current_time /\
  timeout (state_after r) = timeout this /\
  (returned r = true <-> compare_timevals (now (state_after r)) deadline > 0) /\
  returned r = (compare_timevals current_time deadline >? 0).
Proof.
  intros Hguard effective deadline r.
  assert (Hr : r = (compare_timevals current_time deadline >? 0,
                    mk_TimeTracker (timeout this) current_time)).
  { subst r deadline effective.
    destruct timeout_override as [t|]; simpl;
      [|rewrite is_timed_out_default_unfold];
      apply is_timed_out_advance; assumption. }
  rewrite Hr. unfold returned, state_after. simpl.
  repeat split; try reflexivity; lia.
Qed.

Lemma is_timed_out_checks_and_advances_witness :
  let this := mk_TimeTracker (mk_timeval 5 0) (mk_timeval 100 0) in
  compare_timevals (now this) (mk_timeval 106 0) <= 0 /\
  is_timed_out_default (mk_timeval 106 0) this =
    (true, mk_TimeTracker (mk_timeval 5 0) (mk_timeval 106 0)) /\
  now (state_after (is_timed_out_default (mk_timeval 106 0) this)) =
    mk_timeval 106 0.
Proof.
  intros this.
  assert (Hguard : compare_timevals (now this) (mk_timeval 106 0) <= 0)
    by (vm_compute; discriminate).
  split; [exact Hguard|].
  split; [reflexivity|].
  exact (proj1 (is_timed_out_checks_and_advances
                  this (mk_timeval 106 0) None Hguard)).
Defined.

(** C2.  [is_timed_out_and_update_if_timed_out] writes the checkpoint exactly
    when it returns [true]: on [true] the state afterwards is the old one with
    the checkpoint replaced by [current_time], on [false] the state is
    untouched (so a checkpoint that differs afterwards implies [true]).  When
    the guard passes, the returned boolean is the comparison of the unmodified
    [current_time] with the old checkpoint plus the configured timeout. *)
Theorem update_if_timed_out_mutates_iff_true
  (this : TimeTracker) (current_time : timeval) :
  let r := is_timed_out_and_update_if_timed_out current_time this in
  let deadline := add_timevals (now this) (timeout this) in
  (returned r = true ->
     state_after r = mk_TimeTracker (timeout this) current_time) /\
  (returned r = false -> state_after r = this) /\
  (now (state_after r) <> now this -> returned r = true) /\
  (compare_timevals (now this) current_time <= 0 ->
     returned r = (compare_timevals current_time deadline >? 0)).
Proof.
  intros r deadline. subst r deadline.
  destruct (guard_dec (now this) current_time) as [Hg|Hg].
  - rewrite (update_if_timed_out_guard _ _ Hg). unfold returned, state_after.
    simpl. repeat split; try discriminate; try congruence; lia.
  - rewrite (update_if_timed_out_pass _ _ Hg).
    destruct (compare_timevals current_time _ >? 0);
      unfold returned, state_after; simpl;
      repeat split; try discriminate; congruence.
Qed.

Lemma update_if_timed_out_mutates_iff_true_witness :
  let this := mk_TimeTracker (mk_timeval 1 0) (mk_timeval 10 500000) in
  is_timed_out_and_update_if_timed_out (mk_timeval 11 600000) this =
    (true, mk_TimeTracker (mk_timeval 1 0) (mk_timeval 11 600000)) /\
  state_after (is_timed_out_and_update_if_timed_out (mk_timeval 11 600000) this) =
    mk_TimeTracker (timeout this) (mk_timeval 11 600000).
Proof.
  intros this. split; [reflexivity|].
  exact (proj1 (update_if_timed_out_mutates_iff_true this (mk_timeval 11 600000))
               eq_refl).
Defined.

(** With a non-negative timeout and no overflow in the deadline, a [true]
    result also changes the value of the checkpoint. *)
Lemma update_if_timed_out_true_changes_checkpoint
  (this : TimeTracker) (current_time : timeval) :
  nonneg_fields (timeout this) ->
  add_no_overflow (now this) (timeout this) ->
  let r := is_timed_out_and_update_if_timed_out current_time this in
  returned r = true <-> now (state_after r) <> now this.
Proof.
  intros [Hs Hu] Hno r. subst r.
  destruct (guard_dec (now this) current_time) as [Hg|Hg].
  { rewrite (update_if_timed_out_guard _ _ Hg). unfold returned, state_after.
    simpl. split; [discriminate | congruence]. }
  rewrite (update_if_timed_out_pass _ _ Hg).
  destruct (compare_timevals current_time _ >? 0) eqn:Hcmp;
    unfold returned, state_after; simpl.
  2:{ split; [discriminate | congruence]. }
  split; [intros _ | reflexivity]. intros ->.
  rewrite (add_timevals_exact _ _ Hno) in Hcmp.
  assert (Hc : 0 <= add_carry (now this) (timeout this) <= 1)
    by (unfold add_carry; destruct (_ >=? _); lia).
  set (d := mk_timeval _ _) in Hcmp.
  destruct (compare_timevals_cases (now this) d) as [[E ?]|[[E ?]|[E Hgt]]];
    rewrite E in Hcmp; try discriminate.
  subst d. simpl in Hgt. unfold add_carry, MICROSECONDS in *.
  destruct (_ >=? _) eqn:Ecarry; lia.
Qed.

(** A negative timeout lets the check fire on a sample equal to the
    checkpoint: the write then stores the value already there. *)
Example update_if_timed_out_negative_timeout :
  let this := mk_TimeTracker (mk_timeval (-1) 0) (mk_timeval 10 0) in
  is_timed_out_and_update_if_timed_out (mk_timeval 10 0) this = (true, this).
Proof. reflexivity. Qed.

(** C7.  When the checkpoint is strictly after [current_time], every timeout
    check returns [false] and leaves the whole state, checkpoint and timeout,
    as it was.  The checks are total functions into [bool]: there is no error
    outcome. *)
Theorem stale_sample_is_ignored
  (this : TimeTracker) (current_time timeout_arg : timeval) :
  compare_timevals (now this) current_time > 0 ->
  is_timed_out current_time timeout_arg this = (false, this) /\
  is_timed_out_default current_time this = (false, this) /\
  is_timed_out_and_update_if_timed_out current_time this = (false, this).
Proof.
  intros Hg. repeat split.
  - apply is_timed_out_guard, Hg.
  - rewrite is_timed_out_default_unfold. apply is_timed_out_guard, Hg.
  - apply update_if_timed_out_guard, Hg.
Qed.

Lemma stale_sample_is_ignored_witness :
  let this := mk_TimeTracker (mk_timeval 5 0) (mk_timeval 100 0) in
  compare_timevals (now this) (mk_timeval 99 999999) > 0 /\
  is_timed_out (mk_timeval 99 999999) (mk_timeval 0 0) this = (false, this) /\
  is_timed_out_default (mk_timeval 99 999999) this = (false, this) /\
  is_timed_out_and_update_if_timed_out (mk_timeval 99 999999) this = (false, this).
Proof.
  intros this.
  assert (Hg : compare_timevals (now this) (mk_timeval 99 999999) > 0)
    by reflexivity.
  split; [exact Hg|].
  exact (stale_sample_is_ignored this (mk_timeval 99 999999) (mk_timeval 0 0) Hg).
Defined.

Lemma stale_time_point_is_ignored (this : TimeTracker) (tp : time_point) :
  compare_timevals (now this) (mk_timeval (to_time_t tp) 0) > 0 ->
  is_timed_out_and_update_if_timed_out_time_point tp this = (false, this).
Proof. intros Hg. apply update_if_timed_out_guard, Hg. Qed.

(** C8.  Neither overload of [is_timed_out], nor
    [is_timed_out_and_update_if_timed_out] in either overload, changes the
    configured timeout: the state afterwards differs from the state before in
    the checkpoint at most. *)
Theorem timeout_checks_preserve_timeout
  (this : TimeTracker) (current_time timeout_arg : timeval) (tp : time_point) :
  let preserved (r : bool * TimeTracker) :=
    timeout (state_after r) = timeout this /\
    state_after r = mk_TimeTracker (timeout this) (now (state_after r)) in
  preserved (is_timed_out current_time timeout_arg this) /\
  preserved (is_timed_out_default current_time this) /\
  preserved (is_timed_out_and_update_if_timed_out current_time this) /\
  preserved (is_timed_out_and_update_if_timed_out_time_point tp this).
Proof.
  intros preserved. subst preserved.
  destruct this as [t n].
  repeat split; unfold_methods;
    repeat match goal with
           | |- context [if ?b then _ else _] => destruct b
           end; reflexivity.
Qed.

(** C9.  From the same state and for the same sample, [is_timed_out] with the
    configured timeout and [is_timed_out_and_update_if_timed_out] return the
    same boolean.  On [true] they also leave the same state; on [false] the
    second leaves the state untouched while the first differs from it in the
    checkpoint at most, which is [current_time] when the guard passed. *)
Theorem checks_return_same_boolean (this : TimeTracker) (current_time : timeval) :
  let a := is_timed_out_default current_time this in
  let u := is_timed_out_and_update_if_timed_out current_time this in
  returned a = returned u /\
  (returned u = true -> state_after a = state_after u) /\
  (returned u = false ->
     state_after u = this /\
     timeout (state_after a) = timeout this /\
     now (state_after a) =
       if compare_timevals (now this) current_time >? 0
       then now this else current_time).
Proof.
  intros a u. subst a u. rewrite is_timed_out_default_unfold.
  destruct (guard_dec (now this) current_time) as [Hg|Hg].
  - rewrite (is_timed_out_guard _ _ _ Hg), (update_if_timed_out_guard _ _ Hg).
    replace (compare_timevals (now this) current_time >? 0) with true by lia.
    unfold returned, state_after. simpl. auto.
  - rewrite (is_timed_out_advance _ _ _ Hg), (update_if_timed_out_pass _ _ Hg).
    replace (compare_timevals (now this) current_time >? 0) with false by lia.
    destruct (compare_timevals current_time _ >? 0);
      unfold returned, state_after; simpl; repeat split; auto; discriminate.
Qed.

(** ** Monotonicity of the checkpoint *)

Lemma exec_call_checkpoint (c : call) (this : TimeTracker) :
  compare_timevals (now (state_after (exec_call c this))) (now this) >= 0.
Proof.
  assert (Hkeep : compare_timevals (now this) (now this) >= 0)
    by (rewrite compare_timevals_refl; lia).
  assert (Hadv : forall ct, compare_timevals (now this) ct <= 0 ->
                            compare_timevals ct (now this) >= 0)
    by (intros ct H; rewrite compare_timevals_antisym; lia).
  assert (Hupd : forall ct,
    compare_timevals
      (now (state_after (is_timed_out_and_update_if_timed_out ct this)))
      (now this) >= 0).
  { intros ct. destruct (guard_dec (now this) ct) as [Hg|Hg].
    - rewrite (update_if_timed_out_guard _ _ Hg). exact Hkeep.
    - rewrite (update_if_timed_out_pass _ _ Hg).
      destruct (compare_timevals ct _ >? 0); unfold state_after; simpl; auto. }
  assert (Hchk : forall ct t,
    compare_timevals (now (state_after (is_timed_out ct t this))) (now this) >= 0).
  { intros ct t. destruct (guard_dec (now this) ct) as [Hg|Hg].
    - rewrite (is_timed_out_guard _ _ _ Hg). exact Hkeep.
    - rewrite (is_timed_out_advance _ _ _ Hg). unfold state_after; simpl; auto. }
  destruct c as [ct t|ct|ct|tp]; simpl.
  - apply Hchk.
  - rewrite is_timed_out_default_unfold. apply Hchk.
  - apply Hupd.
  - apply Hupd.
Qed.

Lemma checkpoints_lower_bound (cs : list call) :
  forall (this : TimeTracker) (x : timeval),
    compare_timevals (now this) x >= 0 ->
    Forall (fun newer => compare_timevals newer x >= 0) (checkpoints cs this).
Proof.
  induction cs as [|c cs IH]; intros this x Hx; simpl.
  - constructor; [assumption | constructor].
  - constructor; [assumption|].
    apply IH.
    pose proof (exec_call_checkpoint c this) as Hstep.
    rewrite compare_timevals_antisym in Hstep, Hx |- *.
    pose proof (compare_timevals_le_trans
                  x (now this) (now (state_after (exec_call c this)))).
    lia.
Qed.

(** C3.  Along any sequence of calls to [is_timed_out] and
    [is_timed_out_and_update_if_timed_out] (all overloads, no [set_now]), the
    checkpoint never decreases in the lexicographic order: in the list of
    checkpoints observed before the first call and after each call, every
    later entry compares greater than or equal to every earlier one, in
    particular the one after a call to the one before it. *)
Theorem checkpoint_monotone (cs : list call) (this : TimeTracker) :
  StronglySorted (fun older newer => compare_timevals newer older >= 0)
                 (checkpoints cs this).
Proof.
  revert this. induction cs as [|c cs IH]; intros this; simpl.
  - constructor; constructor.
  - constructor.
    + apply IH.
    + apply checkpoints_lower_bound, exec_call_checkpoint.
Qed.

(** ** Repeated samples *)

(** A sample equal to the checkpoint cannot exceed the checkpoint plus a
    non-negative timeout, as long as that sum does not overflow. *)
Lemma checkpoint_not_after_deadline (n t : timeval) :
  nonneg_fields t -> add_no_overflow n t ->
  compare_timevals n (add_timevals n t) <= 0.
Proof.
  intros [Hs Hu] Hno. rewrite (add_timevals_exact _ _ Hno).
  set (d := mk_timeval _ _).
  destruct (compare_timevals_cases n d) as [[E ?]|[[E ?]|[E Hgt]]];
    rewrite E; try lia.
  subst d. simpl in Hgt. unfold add_carry, MICROSECONDS in *.
  destruct (_ >=? _) eqn:Ecarry; lia.
Qed.

(** C10, amended.  If the timeout has non-negative fields and
    [current_time + timeout] does not overflow the 64-bit fields, the second
    of two consecutive calls of [is_timed_out] with the same [current_time]
    returns [false]; when the first call passed the guard it set the
    checkpoint to [current_time], and the second call leaves that state as it
    is. *)
Theorem repeated_sample_not_timed_out (this : TimeTracker) (current_time : timeval) :
  nonneg_fields (timeout this) ->
  add_no_overflow current_time (timeout this) ->
  let first := is_timed_out_default current_time this in
  let second := is_timed_out_default current_time (state_after first) in
  returned second = false /\
  state_after second = state_after first /\
  (compare_timevals (now this) current_time <= 0 ->
     now (state_after first) = current_time).
Proof.
  intros Hnn Hno first second. subst second first.
  rewrite !is_timed_out_default_unfold.
  destruct (guard_dec (now this) current_time) as [Hg|Hg].
  - rewrite (is_timed_out_guard _ _ _ Hg). unfold state_after at 1 2 3 4. simpl.
    rewrite (is_timed_out_guard _ _ _ Hg). unfold returned, state_after. simpl.
    repeat split. lia.
  - rewrite (is_timed_out_advance _ _ _ Hg). unfold state_after at 1 2 3 4. simpl.
    rewrite is_timed_out_advance
      by (simpl; rewrite compare_timevals_refl; lia).
    unfold returned, state_after. simpl.
    pose proof (checkpoint_not_after_deadline current_time (timeout this) Hnn Hno).
    repeat split. lia.
Qed.

Lemma repeated_sample_not_timed_out_witness :
  let this := mk_TimeTracker (mk_timeval 5 0) (mk_timeval 100 0) in
  let ct := mk_timeval 106 0 in
  (nonneg_fields (timeout this) /\ add_no_overflow ct (timeout this)) /\
  returned (is_timed_out_default ct this) = true /\
  returned (is_timed_out_default ct (state_after (is_timed_out_default ct this)))
    = false.
Proof.
  intros this ct.
  assert (Hnn : nonneg_fields (timeout this))
    by (unfold nonneg_fields; simpl; lia).
  assert (Hno : add_no_overflow ct (timeout this))
    by (unfold add_no_overflow, in_long; vm_compute; intuition discriminate).
  split; [auto|]. split; [reflexivity|].
  exact (proj1 (repeated_sample_not_timed_out this ct Hnn Hno)).
Defined.

(** C10 as stated fails when the deadline wraps: the timeout is one second,
    the sample is the largest [time_t], and the second call with the same
    sample reports a timeout. *)
Lemma repeated_sample_overflow :
  let this := mk_TimeTracker (mk_timeval 1 0) (mk_timeval 0 0) in
  let ct := mk_timeval LONG_MAX 0 in
  let first := is_timed_out_default ct this in
  let second := is_timed_out_default ct (state_after first) in
  nonneg_fields (timeout this) /\
  timeval_in_range (timeout this) /\ timeval_in_range (now this) /\
  timeval_in_range ct /\
  now (state_after first) = ct /\
  add_timevals ct (timeout this) = mk_timeval LONG_MIN 0 /\
  returned second = true /\ returned second <> false.
Proof.
  intros this ct first second.
  repeat split; try (vm_compute; discriminate); try reflexivity.
Qed.

(** ** Round trip of the timeout *)

Lemma set_get_timeout_us_wraps (this : TimeTracker) (count : Z) :
  in_long count ->
  returned (get_timeout_us (state_after (set_timeout count this))) =
    wrap_u32 count.
Proof.
  intros Hc. unfold_methods.
  pose proof (Z.quot_rem' count MICROSECONDS) as Hqr.
  assert (Hq : in_long (Z.quot count MICROSECONDS * MICROSECONDS)).
  { unfold in_long, LONG_MIN, LONG_MAX, MICROSECONDS in *.
    destruct (Z_le_gt_dec 0 count) as [Hpos|Hneg].
    - assert (0 <= Z.rem count 1000000 < 1000000)
        by (apply Z.rem_bound_pos; lia).
      lia.
    - pose proof (Z.rem_bound_pos_neg count 1000000) as Hr.
      specialize (Hr ltac:(lia) ltac:(lia)). lia. }
  rewrite (wrap_long_id _ Hq).
  replace (Z.quot count MICROSECONDS * MICROSECONDS + Z.rem count MICROSECONDS)
    with count by lia.
  rewrite (wrap_long_id _ Hc). reflexivity.
Qed.

(** C4.  For a microsecond count that is non-negative and fits the
    [uint32_t] which [get_timeout_us] returns, [set_timeout] followed by
    [get_timeout_us] gives back the count; the checkpoint is not involved. *)
Theorem set_get_timeout_us_roundtrip (this : TimeTracker) (count : Z) :
  0 <= count <= UINT32_MAX ->
  returned ((set_timeout count ;; get_timeout_us) this) = count /\
  now (state_after ((set_timeout count ;; get_timeout_us) this)) = now this.
Proof.
  intros Hc. split; [|reflexivity].
  change (returned ((set_timeout count ;; get_timeout_us) this))
    with (returned (get_timeout_us (state_after (set_timeout count this)))).
  rewrite set_get_timeout_us_wraps, wrap_u32_id; try reflexivity; try assumption.
  unfold in_long, LONG_MIN, LONG_MAX, UINT32_MAX in *. lia.
Qed.

Lemma set_get_timeout_us_roundtrip_witness :
  0 <= 5000000 <= UINT32_MAX /\
  state_after (set_timeout 5000000 TimeTracker_default) =
    mk_TimeTracker (mk_timeval 5 0) (mk_timeval 0 0) /\
  returned ((set_timeout 5000000 ;; get_timeout_us) TimeTracker_default) = 5000000.
Proof.
  assert (Hc : 0 <= 5000000 <= UINT32_MAX) by (vm_compute; intuition discriminate).
  split; [exact Hc|]. split; [reflexivity|].
  exact (proj1 (set_get_timeout_us_roundtrip TimeTracker_default 5000000 Hc)).
Defined.

(** A count beyond [uint32_t] is stored exactly but read back truncated. *)
Example get_timeout_us_truncates :
  state_after (set_timeout (2 ^ 32) TimeTracker_default) =
    mk_TimeTracker (mk_timeval 4294 967296) (mk_timeval 0 0) /\
  returned ((set_timeout (2 ^ 32) ;; get_timeout_us) TimeTracker_default) = 0.
Proof. split; reflexivity. Qed.

(** ** Worked scenarios *)

(** Timeout 5 s, checkpoint (100, 0): a sample at (102, 0) advances the
    checkpoint without a timeout, one at (106, 0) advances it with one. *)
Example scenario_check_and_advance :
  let this := TimeTracker_us_now 5000000 (mk_timeval 100 0) in
  this = mk_TimeTracker (mk_timeval 5 0) (mk_timeval 100 0) /\
  add_timevals (now this) (timeout this) = mk_timeval 105 0 /\
  is_timed_out_default (mk_timeval 102 0) this =
    (false, mk_TimeTracker (mk_timeval 5 0) (mk_timeval 102 0)) /\
  is_timed_out_default (mk_timeval 106 0) this =
    (true, mk_TimeTracker (mk_timeval 5 0) (mk_timeval 106 0)).
Proof. repeat split. Qed.

(** Timeout 1 s, checkpoint (10, 500000): the deadline is (11, 500000). *)
Example scenario_update_only_if_timed_out :
  let this := TimeTracker_us_now 1000000 (mk_timeval 10 500000) in
  add_timevals (now this) (timeout this) = mk_timeval 11 500000 /\
  is_timed_out_and_update_if_timed_out (mk_timeval 11 600000) this =
    (true, mk_TimeTracker (mk_timeval 1 0) (mk_timeval 11 600000)) /\
  is_timed_out_and_update_if_timed_out (mk_timeval 11 400000) this =
    (false, this).
Proof. repeat split. Qed.

(** A sequence mixing both checks, with a stale sample in the middle. *)
Example scenario_checkpoints :
  checkpoints
    [ Call_is_timed_out_default (mk_timeval 102 0);
      Call_is_timed_out_and_update (mk_timeval 101 0);
      Call_is_timed_out_and_update (mk_timeval 104 0);
      Call_is_timed_out (mk_timeval 104 1) (mk_timeval 0 0);
      Call_is_timed_out_and_update_time_point (mk_time_point 200) ]
    (TimeTracker_us_now 5000000 (mk_timeval 100 0)) =
  [ mk_timeval 100 0; mk_timeval 102 0; mk_timeval 102 0; mk_timeval 102 0;
    mk_timeval 104 1; mk_timeval 200 0 ].
Proof. reflexivity. Qed.

(** The constructors agree on a timeout given in microseconds. *)
Example scenario_constructors :
  TimeTracker_u32 2500000 = TimeTracker_timeval (mk_timeval 2 500000) /\
  TimeTracker_us_time_point 2500000 (mk_time_point 7) =
    TimeTracker_us_now 2500000 (mk_timeval 7 0) /\
  returned (get_timeout_us (TimeTracker_u32 2500000)) = 2500000 /\
  returned (get_now (state_after (set_now (mk_timeval 3 4) TimeTracker_default)))
    = mk_timeval 3 4 /\
  state_after (set_now_time_point (mk_time_point 9) TimeTracker_default) =
    mk_TimeTracker (mk_timeval 0 0) (mk_timeval 9 0) /\
  returned (get_timeout (TimeTracker_u32 2500000)) = mk_timeval 2 500000.
Proof. repeat split. Qed.

(** * Further properties *)

(** ** The comparison on arbitrary time values *)

(** X1.  On all time values, normalized or not, [compare_timevals] returns
    -1, 0 or 1, returns -1 exactly for the lexicographically smaller left
    operand, swaps sign when its arguments are swapped, returns 0 only for
    equal operands, and its "not greater" relation is transitive. *)
Theorem compare_timevals_lexicographic (a b c : timeval) :
  (compare_timevals a b = -1 \/ compare_timevals a b = 0 \/
   compare_timevals a b = 1) /\
  (compare_timevals a b = -1 <->
     tv_sec a < tv_sec b \/ (tv_sec a = tv_sec b /\ tv_usec a < tv_usec b)) /\
  compare_timevals b a = - compare_timevals a b /\
  (compare_timevals a b = 0 <-> a = b) /\
  (compare_timevals a b <= 0 -> compare_timevals b c <= 0 ->
     compare_timevals a c <= 0).
Proof.
  split; [|split; [|split; [|split]]].
  - compare_cases a b; auto.
  - compare_cases a b; split; intros; try lia; auto.
  - apply compare_timevals_antisym.
  - apply compare_timevals_eq.
  - apply compare_timevals_le_trans.
Qed.

(** Without the bound on the microseconds the comparison and the flattened
    values can disagree. *)
Example compare_timevals_denormal :
  compare_timevals (mk_timeval 0 2000000) (mk_timeval 1 0) = -1 /\
  flatten (mk_timeval 0 2000000) > flatten (mk_timeval 1 0).
Proof. split; reflexivity. Qed.

(** ** More on addition *)

(** X2.  [add_timevals] is commutative on all inputs, overflowing or not. *)
Theorem add_timevals_commutative (a b : timeval) :
  add_timevals a b = add_timevals b a.
Proof.
  unfold add_timevals.
  rewrite (Z.add_comm (tv_sec a)), (Z.add_comm (tv_usec a)). reflexivity.
Qed.

(** X3.  The zero time value is a left and right identity of [add_timevals]
    on values in the range of the fields whose microseconds are below
    1000000. *)
Theorem add_timevals_identity (a : timeval) :
  timeval_in_range a -> tv_usec a < MICROSECONDS ->
  add_timevals a (mk_timeval 0 0) = a /\ add_timevals (mk_timeval 0 0) a = a.
Proof.
  intros Hr Hlt.
  assert (H : add_timevals a (mk_timeval 0 0) = a)
    by (apply add_timevals_zero; assumption).
  split; [exact H|].
  unfold add_timevals in *. simpl in *.
  rewrite !Z.add_0_r in H. exact H.
Qed.

Lemma add_timevals_identity_witness :
  let a := mk_timeval 10 999999 in
  (timeval_in_range a /\ tv_usec a < MICROSECONDS) /\
  add_timevals a (mk_timeval 0 0) = a /\ add_timevals (mk_timeval 0 0) a = a.
Proof.
  intros a.
  assert (Hr : timeval_in_range a)
    by (unfold timeval_in_range, in_long; vm_compute; intuition discriminate).
  assert (Hlt : tv_usec a < MICROSECONDS) by reflexivity.
  split; [auto|]. exact (add_timevals_identity a Hr Hlt).
Defined.

(** Past that bound, adding zero carries once instead of returning the
    operand. *)
Example add_timevals_zero_denormal :
  add_timevals (mk_timeval 3 1500000) (mk_timeval 0 0) = mk_timeval 4 500000 /\
  add_timevals (mk_timeval 3 2500000) (mk_timeval 0 0) = mk_timeval 4 1500000.
Proof. split; reflexivity. Qed.

(** X4.  [add_timevals] carries at most once: when no intermediate value
    overflows, the microseconds of the result lie in [0, 1000000) exactly
    when the sum of the operands' microseconds lies in [0, 2000000). *)
Theorem add_timevals_single_carry (a b : timeval) :
  add_no_overflow a b ->
  (usec_normal (add_timevals a b) <->
     0 <= tv_usec a + tv_usec b < 2 * MICROSECONDS).
Proof.
  intros Hno. rewrite (add_timevals_exact a b Hno).
  unfold usec_normal, add_carry, MICROSECONDS. simpl.
  destruct (tv_usec a + tv_usec b >=? 1000000) eqn:E; lia.
Qed.

Lemma add_timevals_single_carry_witness :
  let a := mk_timeval 1 1500000 in
  let b := mk_timeval 2 700000 in
  add_no_overflow a b /\
  add_timevals a b = mk_timeval 4 1200000 /\
  ~ usec_normal (add_timevals a b).
Proof.
  intros a b.
  assert (Hno : add_no_overflow a b)
    by (unfold add_no_overflow, in_long; vm_compute; intuition discriminate).
  split; [exact Hno|]. split; [reflexivity|].
  intros H. apply (proj1 (add_timevals_single_carry a b Hno)) in H.
  vm_compute in H. destruct H as [_ H]. discriminate H.
Defined.

Lemma add_carry_range (a b : timeval) : 0 <= add_carry a b <= 1.
Proof. unfold add_carry. destruct (_ >=? _); lia. Qed.

Lemma add_no_overflow_normal (a b : timeval) :
  0 <= tv_sec a -> 0 <= tv_sec b -> usec_normal a -> usec_normal b ->
  tv_sec a + tv_sec b + 1 <= LONG_MAX ->
  add_no_overflow a b.
Proof.
  unfold add_no_overflow, usec_normal, in_long, LONG_MIN, LONG_MAX, MICROSECONDS.
  intros Ha Hb Hua Hub Hmax. pose proof (add_carry_range a b). lia.
Qed.

Lemma add_timevals_usec_normal (a b : timeval) :
  usec_normal a -> usec_normal b -> add_no_overflow a b ->
  usec_normal (add_timevals a b).
Proof.
  intros Hua Hub Hno. rewrite (add_timevals_exact a b Hno).
  unfold usec_normal, add_carry, MICROSECONDS in *. simpl.
  destruct (tv_usec a + tv_usec b >=? 1000000) eqn:E; lia.
Qed.

Lemma add_timevals_sec_range (a b : timeval) :
  add_no_overflow a b ->
  tv_sec a + tv_sec b <= tv_sec (add_timevals a b) <= tv_sec a + tv_sec b + 1.
Proof.
  intros Hno. rewrite (add_timevals_exact a b Hno). simpl.
  pose proof (add_carry_range a b). lia.
Qed.

Lemma flatten_inj (a b : timeval) :
  usec_normal a -> usec_normal b -> flatten a = flatten b -> a = b.
Proof.
  unfold usec_normal, flatten, MICROSECONDS. intros Ha Hb H.
  destruct a as [sa ua], b as [sb ub]; simpl in *.
  assert (sa = sb) by lia. f_equal; lia.
Qed.

(** X5.  On normalized time values with non-negative seconds whose seconds
    sum leaves room for two carries, [add_timevals] is associative. *)
Theorem add_timevals_associative (a b c : timeval) :
  0 <= tv_sec a -> 0 <= tv_sec b -> 0 <= tv_sec c ->
  usec_normal a -> usec_normal b -> usec_normal c ->
  tv_sec a + tv_sec b + tv_sec c + 2 <= LONG_MAX ->
  add_timevals (add_timevals a b) c = add_timevals a (add_timevals b c).
Proof.
  intros Ha Hb Hc Hua Hub Huc Hmax.
  assert (Hab : add_no_overflow a b) by (apply add_no_overflow_normal; auto; lia).
  assert (Hbc : add_no_overflow b c) by (apply add_no_overflow_normal; auto; lia).
  pose proof (add_timevals_sec_range a b Hab) as Rab.
  pose proof (add_timevals_sec_range b c Hbc) as Rbc.
  pose proof (add_timevals_usec_normal a b Hua Hub Hab) as Nab.
  pose proof (add_timevals_usec_normal b c Hub Huc Hbc) as Nbc.
  assert (Hl : add_no_overflow (add_timevals a b) c)
    by (apply add_no_overflow_normal; auto; lia).
  assert (Hr : add_no_overflow a (add_timevals b c))
    by (apply add_no_overflow_normal; auto; lia).
  apply flatten_inj.
  - apply add_timevals_usec_normal; assumption.
  - apply add_timevals_usec_normal; assumption.
  - rewrite !add_timevals_flatten by assumption. lia.
Qed.

Lemma add_timevals_associative_witness :
  let a := mk_timeval 1 600000 in
  let b := mk_timeval 2 700000 in
  let c := mk_timeval 3 800000 in
  (usec_normal a /\ usec_normal b /\ usec_normal c /\
   tv_sec a + tv_sec b + tv_sec c + 2 <= LONG_MAX) /\
  add_timevals a (add_timevals b c) = mk_timeval 8 100000 /\
  add_timevals (add_timevals a b) c = add_timevals a (add_timevals b c).
Proof.
  intros a b c.
  assert (Hua : usec_normal a) by (unfold usec_normal; vm_compute; intuition discriminate).
  assert (Hub : usec_normal b) by (unfold usec_normal; vm_compute; intuition discriminate).
  assert (Huc : usec_normal c) by (unfold usec_normal; vm_compute; intuition discriminate).
  assert (Hmax : tv_sec a + tv_sec b + tv_sec c + 2 <= LONG_MAX)
    by (vm_compute; discriminate).
  split; [auto|]. split; [reflexivity|].
  apply (add_timevals_associative a b c); simpl; try lia; assumption.
Defined.

(** ** Setting and reading the timeout *)

(** X6.  [set_timeout] splits any microsecond count into fields whose
    flattened value is the count again, and leaves the checkpoint alone.  A
    non-negative count gives non-negative seconds and microseconds in
    [0, 1000000); a negative count gives non-positive seconds and
    microseconds in (-1000000, 0], since [/] and [%] truncate towards zero.
    The two constructors taking a [time_t] count store the same timeout. *)
Theorem set_timeout_decomposes (this : TimeTracker) (count : Z) :
  let after := state_after (set_timeout count this) in
  flatten (timeout after) = count /\
  now after = now this /\
  (0 <= count -> 0 <= tv_sec (timeout after) /\ usec_normal (timeout after)) /\
  (count < 0 ->
     tv_sec (timeout after) <= 0 /\
     - MICROSECONDS < tv_usec (timeout after) <= 0) /\
  (forall n, timeout (TimeTracker_us_now count n) = timeout after) /\
  (forall tp, timeout (TimeTracker_us_time_point count tp) = timeout after).
Proof.
  intros after. subst after. unfold_methods.
  unfold flatten, usec_normal, TimeTracker_us_now, TimeTracker_us_time_point.
  simpl.
  pose proof (Z.quot_rem' count MICROSECONDS) as Hqr.
  unfold MICROSECONDS in *.
  split; [lia|]. split; [reflexivity|].
  split; [|split; [|split; reflexivity]].
  - intros Hpos.
    pose proof (Z.rem_bound_pos count 1000000 Hpos ltac:(lia)).
    pose proof (Z.quot_pos count 1000000 Hpos ltac:(lia)). lia.
  - intros Hneg.
    pose proof (Z.rem_bound_pos_neg count 1000000) as Hr.
    specialize (Hr ltac:(lia) ltac:(lia)). lia.
Qed.

Example set_timeout_negative :
  state_after (set_timeout (-1500000) TimeTracker_default) =
    mk_TimeTracker (mk_timeval (-1) (-500000)) (mk_timeval 0 0).
Proof. reflexivity. Qed.

(** X7.  For every [time_t] count, [set_timeout] followed by
    [get_timeout_us] returns the count reduced modulo 2^32; it returns the
    count itself exactly when the count lies in [0, 2^32 - 1]. *)
Theorem set_get_timeout_us_exact_iff (this : TimeTracker) (count : Z) :
  in_long count ->
  let r := returned ((set_timeout count ;; get_timeout_us) this) in
  r = count mod 2 ^ 32 /\ (r = count <-> 0 <= count <= UINT32_MAX).
Proof.
  intros Hc r.
  assert (Hr : r = count mod 2 ^ 32).
  { subst r.
    change (returned ((set_timeout count ;; get_timeout_us) this))
      with (returned (get_timeout_us (state_after (set_timeout count this)))).
    rewrite set_get_timeout_us_wraps by assumption. reflexivity. }
  split; [exact Hr|]. rewrite Hr. unfold UINT32_MAX.
  pose proof (Z.mod_pos_bound count (2 ^ 32) ltac:(lia)).
  split; intros H1.
  - lia.
  - apply Z.mod_small. lia.
Qed.

Lemma set_get_timeout_us_exact_iff_witness :
  in_long (-1) /\
  returned ((set_timeout (-1) ;; get_timeout_us) TimeTracker_default) =
    4294967295.
Proof.
  assert (Hc : in_long (-1))
    by (unfold in_long; vm_compute; intuition discriminate).
  split; [exact Hc|].
  exact (proj1 (set_get_timeout_us_exact_iff TimeTracker_default (-1) Hc)).
Defined.

(** X8.  For a timeout with non-negative fields whose flattened value fits a
    [long], however it was stored, [get_timeout_us] leaves the object as it
    is and returns the flattened value modulo 2^32: the exact value when it
    is at most 2^32 - 1 (about 4294.97 s), a smaller one otherwise. *)
Theorem get_timeout_us_truncates_flattened (this : TimeTracker) :
  nonneg_fields (timeout this) ->
  flatten (timeout this) <= LONG_MAX ->
  let r := get_timeout_us this in
  state_after r = this /\
  returned r = flatten (timeout this) mod 2 ^ 32 /\
  (flatten (timeout this) <= UINT32_MAX -> returned r = flatten (timeout this)) /\
  (UINT32_MAX < flatten (timeout this) -> returned r < flatten (timeout this)).
Proof.
  intros [Hs Hu] Hmax r. subst r. unfold_methods.
  unfold flatten, MICROSECONDS, LONG_MAX, UINT32_MAX in *.
  rewrite (wrap_long_id (tv_sec (timeout this) * 1000000))
    by (unfold in_long, LONG_MIN, LONG_MAX; lia).
  rewrite wrap_long_id by (unfold in_long, LONG_MIN, LONG_MAX; lia).
  unfold wrap_u32.
  pose proof (Z.mod_pos_bound
                (tv_sec (timeout this) * 1000000 + tv_usec (timeout this))
                (2 ^ 32) ltac:(lia)).
  repeat split.
  - intros Hle. apply Z.mod_small. lia.
  - intros Hgt. lia.
Qed.

Lemma get_timeout_us_truncates_flattened_witness :
  let this := TimeTracker_timeval (mk_timeval 4295 0) in
  (nonneg_fields (timeout this) /\ flatten (timeout this) <= LONG_MAX) /\
  get_timeout_us this = (32704, this) /\
  returned (get_timeout_us this) = flatten (timeout this) mod 2 ^ 32.
Proof.
  intros this.
  assert (Hnn : nonneg_fields (timeout this))
    by (unfold nonneg_fields; simpl; lia).
  assert (Hmax : flatten (timeout this) <= LONG_MAX)
    by (vm_compute; discriminate).
  split; [auto|]. split; [reflexivity|].
  exact (proj1 (proj2 (get_timeout_us_truncates_flattened this Hnn Hmax))).
Defined.

(** X9.  The constructor from a [uint32_t] count stores a normalized,
    non-negative timeout whose flattened value is the count, starts the
    checkpoint at zero, agrees with the [time_t] constructor given a zero
    checkpoint, and [get_timeout_us] reads the count back: the round trip
    holds on the whole domain of this constructor. *)
Theorem TimeTracker_u32_roundtrip (timeout_us : Z) :
  0 <= timeout_us <= UINT32_MAX ->
  let this := TimeTracker_u32 timeout_us in
  nonneg_fields (timeout this) /\ usec_normal (timeout this) /\
  flatten (timeout this) = timeout_us /\
  now this = mk_timeval 0 0 /\
  this = TimeTracker_us_now timeout_us (mk_timeval 0 0) /\
  get_timeout_us this = (timeout_us, this).
Proof.
  intros Hc this.
  assert (Hq : Z.quot timeout_us MICROSECONDS = timeout_us / MICROSECONDS)
    by (apply Z.quot_div_nonneg; unfold MICROSECONDS; lia).
  assert (Hr : Z.rem timeout_us MICROSECONDS = timeout_us mod MICROSECONDS)
    by (apply Z.rem_mod_nonneg; unfold MICROSECONDS; lia).
  assert (Hdm : timeout_us =
                MICROSECONDS * (timeout_us / MICROSECONDS) +
                timeout_us mod MICROSECONDS)
    by (apply Z.div_mod; unfold MICROSECONDS; lia).
  assert (Hm : 0 <= timeout_us mod MICROSECONDS < MICROSECONDS)
    by (apply Z.mod_pos_bound; unfold MICROSECONDS; lia).
  assert (Hd : 0 <= timeout_us / MICROSECONDS)
    by (apply Z.div_pos; unfold MICROSECONDS; lia).
  subst this. unfold TimeTracker_u32, TimeTracker_us_now.
  unfold nonneg_fields, usec_normal, flatten. unfold_methods. simpl.
  rewrite Hq, Hr.
  split; [lia|]. split; [lia|]. split; [lia|].
  split; [reflexivity|]. split; [reflexivity|].
  f_equal.
  unfold UINT32_MAX, MICROSECONDS in *.
  rewrite (wrap_long_id (timeout_us / 1000000 * 1000000))
    by (unfold in_long, LONG_MIN, LONG_MAX; lia).
  rewrite wrap_long_id by (unfold in_long, LONG_MIN, LONG_MAX; lia).
  unfold wrap_u32. rewrite Z.mod_small; lia.
Qed.

Lemma TimeTracker_u32_roundtrip_witness :
  0 <= 4294967295 <= UINT32_MAX /\
  TimeTracker_u32 4294967295 =
    mk_TimeTracker (mk_timeval 4294 967295) (mk_timeval 0 0) /\
  get_timeout_us (TimeTracker_u32 4294967295) =
    (4294967295, TimeTracker_u32 4294967295).
Proof.
  assert (Hc : 0 <= 4294967295 <= UINT32_MAX)
    by (vm_compute; intuition discriminate).
  split; [exact Hc|]. split; [reflexivity|].
  apply (TimeTracker_u32_roundtrip 4294967295 Hc).
Defined.

(** ** The checks on flattened values *)

Lemma compare_le_flatten (a b : timeval) :
  usec_normal a -> usec_normal b ->
  (compare_timevals a b <= 0 <-> flatten a <= flatten b).
Proof.
  intros Ha Hb.
  pose proof (flatten_order a b Ha Hb) as Hab.
  pose proof (flatten_order b a Hb Ha) as Hba.
  unfold flatten in *.
  compare_cases a b; split; intros Hx; lia.
Qed.

Lemma compare_gt_flatten (a b : timeval) :
  usec_normal a -> usec_normal b ->
  ((compare_timevals a b >? 0) = true <-> flatten b < flatten a).
Proof.
  intros Ha Hb. pose proof (compare_le_flatten a b Ha Hb) as Hle.
  destruct (compare_timevals a b >? 0) eqn:E; split; intros Hx;
    try lia; try discriminate.
Qed.

(** X12.  On normalized checkpoint, timeout and sample, with a deadline that
    does not overflow, both checks report a timeout exactly when the sample
    is not before the checkpoint and its flattened value exceeds the sum of
    the flattened checkpoint and the flattened timeout. *)
Theorem timeout_fires_on_flattened_values
  (this : TimeTracker) (current_time : timeval) :
  usec_normal (now this) -> usec_normal (timeout this) ->
  usec_normal current_time ->
  add_no_overflow (now this) (timeout this) ->
  let fires :=
    flatten (now this) <= flatten current_time /\
    flatten (now this) + flatten (timeout this) < flatten current_time in
  (returned (is_timed_out_default current_time this) = true <-> fires) /\
  (returned (is_timed_out_and_update_if_timed_out current_time this) = true
     <-> fires).
Proof.
  intros Hn Ht Hc Hno fires. subst fires.
  pose proof (add_timevals_usec_normal _ _ Hn Ht Hno) as Hd.
  pose proof (compare_gt_flatten current_time _ Hc Hd) as Hgt.
  rewrite (add_timevals_flatten _ _ Hno) in Hgt.
  pose proof (compare_le_flatten (now this) current_time Hn Hc) as Hle.
  rewrite is_timed_out_default_unfold.
  destruct (guard_dec (now this) current_time) as [Hg|Hg].
  - rewrite (is_timed_out_guard _ _ _ Hg), (update_if_timed_out_guard _ _ Hg).
    unfold returned. simpl.
    split; (split; [discriminate | intros [H1 _]; apply Hle in H1; lia]).
  - rewrite (is_timed_out_advance _ _ _ Hg), (update_if_timed_out_pass _ _ Hg).
    apply Hle in Hg.
    destruct (compare_timevals current_time _ >? 0); unfold returned; simpl.
    + assert (flatten (now this) + flatten (timeout this) < flatten current_time)
        by (apply Hgt; reflexivity).
      split; (split; [intros _; split; assumption | reflexivity]).
    + split; (split; [discriminate | intros [_ H2]; apply Hgt in H2; discriminate]).
Qed.

Lemma timeout_fires_on_flattened_values_witness :
  let this := mk_TimeTracker (mk_timeval 1 0) (mk_timeval 10 500000) in
  let ct := mk_timeval 11 600000 in
  (usec_normal (now this) /\ usec_normal (timeout this) /\ usec_normal ct /\
   add_no_overflow (now this) (timeout this)) /\
  flatten (now this) + flatten (timeout this) < flatten ct /\
  returned (is_timed_out_default ct this) = true.
Proof.
  intros this ct.
  assert (Hn : usec_normal (now this))
    by (unfold usec_normal; vm_compute; intuition discriminate).
  assert (Ht : usec_normal (timeout this))
    by (unfold usec_normal; vm_compute; intuition discriminate).
  assert (Hc : usec_normal ct)
    by (unfold usec_normal; vm_compute; intuition discriminate).
  assert (Hno : add_no_overflow (now this) (timeout this))
    by (unfold add_no_overflow, in_long; vm_compute; intuition discriminate).
  split; [auto|]. split; [reflexivity|].
  apply (proj1 (timeout_fires_on_flattened_values this ct Hn Ht Hc Hno)).
  split; vm_compute; [discriminate | reflexivity].
Defined.

(** X18.  With a zero timeout, as after the default constructor, and a
    checkpoint in range with microseconds below 1000000, both checks report
    a timeout exactly for samples strictly after the checkpoint. *)
Theorem zero_timeout_fires_on_later_samples
  (this : TimeTracker) (current_time : timeval) :
  timeout this = mk_timeval 0 0 ->
  timeval_in_range (now this) -> tv_usec (now this) < MICROSECONDS ->
  (returned (is_timed_out_default current_time this) = true <->
     compare_timevals (now this) current_time = -1) /\
  (returned (is_timed_out_and_update_if_timed_out current_time this) = true <->
     compare_timevals (now this) current_time = -1).
Proof.
  intros Ht Hr Hlt.
  pose proof (add_timevals_zero (now this) Hr Hlt) as Hz.
  pose proof (compare_timevals_antisym (now this) current_time) as Hanti.
  rewrite is_timed_out_default_unfold.
  destruct (guard_dec (now this) current_time) as [Hg|Hg].
  - rewrite (is_timed_out_guard _ _ _ Hg), (update_if_timed_out_guard _ _ Hg).
    unfold returned. simpl. split; (split; [discriminate | lia]).
  - rewrite (is_timed_out_advance _ _ _ Hg), (update_if_timed_out_pass _ _ Hg).
    rewrite Ht, Hz.
    destruct (compare_timevals current_time (now this) >? 0) eqn:E;
      unfold returned; simpl.
    + split; (split; [intros _ | reflexivity]);
        compare_cases (now this) current_time; lia.
    + split; (split; [discriminate | intros H; lia]).
Qed.

Lemma zero_timeout_fires_on_later_samples_witness :
  let this := TimeTracker_default in
  (timeout this = mk_timeval 0 0 /\ timeval_in_range (now this) /\
   tv_usec (now this) < MICROSECONDS) /\
  compare_timevals (now this) (mk_timeval 0 1) = -1 /\
  returned (is_timed_out_default (mk_timeval 0 1) this) = true.
Proof.
  intros this.
  assert (Ht : timeout this = mk_timeval 0 0) by reflexivity.
  assert (Hr : timeval_in_range (now this))
    by (unfold timeval_in_range, in_long; vm_compute; intuition discriminate).
  assert (Hlt : tv_usec (now this) < MICROSECONDS) by reflexivity.
  split; [auto|]. split; [reflexivity|].
  apply (proj1 (zero_timeout_fires_on_later_samples
                  this (mk_timeval 0 1) Ht Hr Hlt)).
  reflexivity.
Defined.

(** ** Time points *)

(** X11.  The [time_point] overload compares whole seconds with the full
    checkpoint: a time point falling in the second of a checkpoint that has
    a positive microsecond part is treated as stale, so the call returns
    [false] and changes nothing, whatever the timeout. *)
Theorem time_point_in_checkpoint_second_is_stale
  (this : TimeTracker) (tp : time_point) :
  to_time_t tp = tv_sec (now this) -> 0 < tv_usec (now this) ->
  is_timed_out_and_update_if_timed_out_time_point tp this = (false, this).
Proof.
  intros Hs Hu.
  unfold is_timed_out_and_update_if_timed_out_time_point.
  apply update_if_timed_out_guard.
  compare_cases (now this) (mk_timeval (to_time_t tp) 0); simpl in *; lia.
Qed.

Lemma time_point_in_checkpoint_second_is_stale_witness :
  let this := mk_TimeTracker (mk_timeval (-5) 0) (mk_timeval 100 1) in
  (to_time_t (mk_time_point 100) = tv_sec (now this) /\ 0 < tv_usec (now this)) /\
  is_timed_out_and_update_if_timed_out (mk_timeval 100 1) this = (true, this) /\
  is_timed_out_and_update_if_timed_out_time_point (mk_time_point 100) this =
    (false, this).
Proof.
  intros this.
  assert (Hs : to_time_t (mk_time_point 100) = tv_sec (now this)) by reflexivity.
  assert (Hu : 0 < tv_usec (now this)) by reflexivity.
  split; [auto|]. split; [reflexivity|].
  exact (time_point_in_checkpoint_second_is_stale this (mk_time_point 100) Hs Hu).
Defined.

(** ** Runs of checks *)

Lemma run_calls_cons (c : call) (cs : list call) (this : TimeTracker) :
  run_calls (c :: cs) this =
    (returned (exec_call c this)
       :: returned (run_calls cs (state_after (exec_call c this))),
     state_after (run_calls cs (state_after (exec_call c this)))).
Proof.
  simpl. unfold bind, ret, returned, state_after.
  destruct (exec_call c this) as [r this']. simpl.
  destruct (run_calls cs this') as [rs this'']. reflexivity.
Qed.

(** X17.  Whatever the call, the checkpoint afterwards is the checkpoint
    before or the sample of the call, the timeout is the one before, and a
    [true] result means that the checkpoint is now the sample. *)
Theorem exec_call_outcome (c : call) (this : TimeTracker) :
  let r := exec_call c this in
  (now (state_after r) = now this \/ now (state_after r) = sample_of c) /\
  timeout (state_after r) = timeout this /\
  (returned r = true -> now (state_after r) = sample_of c).
Proof.
  intros r. subst r.
  assert (Hchk : forall ct t,
    let r := is_timed_out ct t this in
    (now (state_after r) = now this \/ now (state_after r) = ct) /\
    timeout (state_after r) = timeout this /\
    (returned r = true -> now (state_after r) = ct)).
  { intros ct t. destruct (guard_dec (now this) ct) as [Hg|Hg]; simpl.
    - rewrite (is_timed_out_guard _ _ _ Hg). unfold returned, state_after.
      simpl. repeat split; auto. discriminate.
    - rewrite (is_timed_out_advance _ _ _ Hg). unfold returned, state_after.
      simpl. auto. }
  assert (Hupd : forall ct,
    let r := is_timed_out_and_update_if_timed_out ct this in
    (now (state_after r) = now this \/ now (state_after r) = ct) /\
    timeout (state_after r) = timeout this /\
    (returned r = true -> now (state_after r) = ct)).
  { intros ct. destruct (guard_dec (now this) ct) as [Hg|Hg]; simpl.
    - rewrite (update_if_timed_out_guard _ _ Hg). unfold returned, state_after.
      simpl. repeat split; auto. discriminate.
    - rewrite (update_if_timed_out_pass _ _ Hg).
      destruct (compare_timevals ct _ >? 0); unfold returned, state_after;
        simpl; repeat split; auto; discriminate. }
  destruct c as [ct t|ct|ct|tp]; simpl.
  - apply Hchk.
  - rewrite is_timed_out_default_unfold. apply Hchk.
  - apply Hupd.
  - apply Hupd.
Qed.

(** X13.  Two samples [a] then [b], where [a] is within the deadline of the
    checkpoint and [b] is past that deadline but within the deadline of [a]:
    [is_timed_out] reports no timeout for either, because the first call
    moved the checkpoint to [a]; [is_timed_out_and_update_if_timed_out]
    reports the timeout at [b], because it kept the checkpoint.  Both end
    with the checkpoint at [b]. *)
Theorem advance_drifts_update_keeps_anchor (this : TimeTracker) (a b : timeval) :
  compare_timevals (now this) a <= 0 ->
  compare_timevals a b <= 0 ->
  compare_timevals a (add_timevals (now this) (timeout this)) <= 0 ->
  compare_timevals b (add_timevals (now this) (timeout this)) > 0 ->
  compare_timevals b (add_timevals a (timeout this)) <= 0 ->
  run_calls [Call_is_timed_out_default a; Call_is_timed_out_default b] this =
    ([false; false], mk_TimeTracker (timeout this) b) /\
  run_calls [Call_is_timed_out_and_update a; Call_is_timed_out_and_update b] this =
    ([false; true], mk_TimeTracker (timeout this) b).
Proof.
  intros Hna Hab Ha Hb Hb'.
  pose proof (compare_timevals_le_trans _ _ _ Hna Hab) as Hnb.
  set (t := timeout this) in *.
  assert (A1 : is_timed_out_default a this = (false, mk_TimeTracker t a)).
  { rewrite is_timed_out_default_unfold, (is_timed_out_advance _ _ _ Hna).
    fold t. replace (compare_timevals a _ >? 0) with false by lia.
    reflexivity. }
  assert (A2 : is_timed_out_default b (mk_TimeTracker t a) =
               (false, mk_TimeTracker t b)).
  { rewrite is_timed_out_default_unfold, is_timed_out_advance by exact Hab.
    cbn [now timeout].
    replace (compare_timevals b _ >? 0) with false by lia. reflexivity. }
  assert (U1 : is_timed_out_and_update_if_timed_out a this = (false, this)).
  { rewrite (update_if_timed_out_pass _ _ Hna). fold t.
    replace (compare_timevals a _ >? 0) with false by lia. reflexivity. }
  assert (U2 : is_timed_out_and_update_if_timed_out b this =
               (true, mk_TimeTracker t b)).
  { rewrite (update_if_timed_out_pass _ _ Hnb). fold t.
    replace (compare_timevals b _ >? 0) with true by lia. reflexivity. }
  split; cbn [run_calls exec_call]; unfold bind; cbv beta.
  - rewrite A1, A2. reflexivity.
  - rewrite U1, U2. reflexivity.
Qed.

Lemma advance_drifts_update_keeps_anchor_witness :
  let this := mk_TimeTracker (mk_timeval 5 0) (mk_timeval 100 0) in
  let a := mk_timeval 104 0 in
  let b := mk_timeval 108 0 in
  (compare_timevals (now this) a <= 0 /\
   compare_timevals a b <= 0 /\
   compare_timevals a (add_timevals (now this) (timeout this)) <= 0 /\
   compare_timevals b (add_timevals (now this) (timeout this)) > 0 /\
   compare_timevals b (add_timevals a (timeout this)) <= 0) /\
  run_calls [Call_is_timed_out_default a; Call_is_timed_out_default b] this =
    ([false; false], mk_TimeTracker (timeout this) b) /\
  run_calls [Call_is_timed_out_and_update a; Call_is_timed_out_and_update b] this =
    ([false; true], mk_TimeTracker (timeout this) b).
Proof.
  intros this a b.
  assert (H1 : compare_timevals (now this) a <= 0) by (vm_compute; discriminate).
  assert (H2 : compare_timevals a b <= 0) by (vm_compute; discriminate).
  assert (H3 : compare_timevals a (add_timevals (now this) (timeout this)) <= 0)
    by (vm_compute; discriminate).
  assert (H4 : compare_timevals b (add_timevals (now this) (timeout this)) > 0)
    by (vm_compute; reflexivity).
  assert (H5 : compare_timevals b (add_timevals a (timeout this)) <= 0)
    by (vm_compute; discriminate).
  split; [auto 6|].
  exact (advance_drifts_update_keeps_anchor this a b H1 H2 H3 H4 H5).
Defined.

(** X14.  With a timeout of non-negative fields and a sample whose deadline
    does not overflow, calling [is_timed_out_and_update_if_timed_out] a
    second time with the same sample returns [false] and changes nothing: a
    timeout is reported at most once per sample. *)
Theorem update_repeated_sample_not_timed_out
  (this : TimeTracker) (current_time : timeval) :
  nonneg_fields (timeout this) ->
  add_no_overflow current_time (timeout this) ->
  let first := is_timed_out_and_update_if_timed_out current_time this in
  let second :=
    is_timed_out_and_update_if_timed_out current_time (state_after first) in
  returned second = false /\ state_after second = state_after first.
Proof.
  intros Hnn Hno first second. subst second first.
  destruct (guard_dec (now this) current_time) as [Hg|Hg].
  - rewrite (update_if_timed_out_guard _ _ Hg). unfold state_after at 1 2 3.
    cbn [snd]. rewrite (update_if_timed_out_guard _ _ Hg). auto.
  - rewrite (update_if_timed_out_pass _ _ Hg).
    destruct (compare_timevals current_time _ >? 0) eqn:E.
    + unfold state_after at 1 2 3. cbn [snd].
      rewrite update_if_timed_out_pass
        by (cbn [now]; rewrite compare_timevals_refl; lia).
      cbn [now timeout].
      pose proof (checkpoint_not_after_deadline _ _ Hnn Hno).
      replace (compare_timevals current_time _ >? 0) with false by lia.
      auto.
    + unfold state_after at 1 2 3. cbn [snd].
      rewrite (update_if_timed_out_pass _ _ Hg), E. auto.
Qed.

Lemma update_repeated_sample_not_timed_out_witness :
  let this := mk_TimeTracker (mk_timeval 1 0) (mk_timeval 10 500000) in
  let ct := mk_timeval 11 600000 in
  (nonneg_fields (timeout this) /\ add_no_overflow ct (timeout this)) /\
  returned (is_timed_out_and_update_if_timed_out ct this) = true /\
  returned (is_timed_out_and_update_if_timed_out ct
              (state_after (is_timed_out_and_update_if_timed_out ct this)))
    = false.
Proof.
  intros this ct.
  assert (Hnn : nonneg_fields (timeout this))
    by (unfold nonneg_fields; simpl; lia).
  assert (Hno : add_no_overflow ct (timeout this))
    by (unfold add_no_overflow, in_long; vm_compute; intuition discriminate).
  split; [auto|]. split; [reflexivity|].
  exact (proj1 (update_repeated_sample_not_timed_out this ct Hnn Hno)).
Defined.

(** X15.  Any run of [is_timed_out_and_update_if_timed_out] over samples none
    of which is past the current deadline returns [false] every time and
    leaves the object exactly as it was, stale samples included. *)
Theorem quiet_samples_keep_state (cts : list timeval) (this : TimeTracker) :
  Forall (fun ct =>
            compare_timevals ct (add_timevals (now this) (timeout this)) <= 0)
         cts ->
  run_calls (map Call_is_timed_out_and_update cts) this =
    (map (fun _ => false) cts, this).
Proof.
  induction 1 as [|ct cts Hct Hcts IH]; [reflexivity|].
  cbn [map]. rewrite run_calls_cons. cbn [exec_call].
  assert (Hstep : is_timed_out_and_update_if_timed_out ct this = (false, this)).
  { destruct (guard_dec (now this) ct) as [Hg|Hg].
    - apply update_if_timed_out_guard, Hg.
    - rewrite (update_if_timed_out_pass _ _ Hg).
      replace (compare_timevals ct _ >? 0) with false by lia. reflexivity. }
  rewrite Hstep. unfold returned, state_after in *. cbn [fst snd].
  rewrite IH. reflexivity.
Qed.

Lemma quiet_samples_keep_state_witness :
  let this := mk_TimeTracker (mk_timeval 5 0) (mk_timeval 100 0) in
  let cts := [mk_timeval 101 0; mk_timeval 99 0; mk_timeval 105 0] in
  Forall (fun ct =>
            compare_timevals ct (add_timevals (now this) (timeout this)) <= 0)
         cts /\
  run_calls (map Call_is_timed_out_and_update cts) this =
    ([false; false; false], this).
Proof.
  intros this cts.
  assert (Hq : Forall (fun ct =>
            compare_timevals ct (add_timevals (now this) (timeout this)) <= 0)
         cts)
    by (repeat constructor; vm_compute; discriminate).
  split; [exact Hq|].
  exact (quiet_samples_keep_state cts this Hq).
Defined.

Lemma fold_timeval_max_state (cs : list call) :
  forall this,
    Forall always_advancing cs ->
    state_after (run_calls cs this) =
      mk_TimeTracker (timeout this)
                     (fold_left timeval_max (map sample_of cs) (now this)).
Proof.
  induction cs as [|c cs IH]; intros this Hall.
  - destruct this; reflexivity.
  - inversion Hall as [|c' cs' Hc Hcs]; subst.
    rewrite run_calls_cons. unfold state_after at 1. cbn [snd].
    rewrite (IH _ Hcs). cbn [map fold_left].
    assert (Hstep : forall ct t,
      state_after (is_timed_out ct t this) =
        mk_TimeTracker (timeout this) (timeval_max (now this) ct)).
    { intros ct t. unfold timeval_max.
      destruct (guard_dec (now this) ct) as [Hg|Hg].
      - rewrite (is_timed_out_guard _ _ _ Hg).
        replace (compare_timevals (now this) ct >? 0) with true by lia.
        destruct this; reflexivity.
      - rewrite (is_timed_out_advance _ _ _ Hg).
        replace (compare_timevals (now this) ct >? 0) with false by lia.
        reflexivity. }
    destruct c as [ct t|ct|ct|tp]; try contradiction; cbn [exec_call sample_of].
    + rewrite Hstep. reflexivity.
    + rewrite is_timed_out_default_unfold, Hstep. reflexivity.
Qed.

(** X16.  After any run of [is_timed_out] calls (either overload), the
    checkpoint is the lexicographic maximum of the initial checkpoint and all
    samples, and the timeout is the initial one. *)
Theorem advancing_run_tracks_maximum (cs : list call) (this : TimeTracker) :
  Forall always_advancing cs ->
  let after := state_after (run_calls cs this) in
  now after = fold_left timeval_max (map sample_of cs) (now this) /\
  timeout after = timeout this /\
  Forall (fun c => compare_timevals (sample_of c) (now after) <= 0) cs /\
  compare_timevals (now this) (now after) <= 0.
Proof.
  intros Hall after. subst after.
  rewrite (fold_timeval_max_state cs this Hall). cbn [now timeout].
  split; [reflexivity|]. split; [reflexivity|].
  clear Hall.
  assert (Hmax : forall l x,
    compare_timevals x (fold_left timeval_max l x) <= 0 /\
    Forall (fun y => compare_timevals y (fold_left timeval_max l x) <= 0) l).
  { induction l as [|y l IHl]; intros x; cbn [fold_left].
    - rewrite compare_timevals_refl. split; [lia | constructor].
    - destruct (IHl (timeval_max x y)) as [Hx Hl].
      assert (Hxm : compare_timevals x (timeval_max x y) <= 0 /\
                    compare_timevals y (timeval_max x y) <= 0).
      { unfold timeval_max.
        destruct (compare_timevals x y >? 0) eqn:E;
          rewrite ?compare_timevals_refl;
          pose proof (compare_timevals_antisym x y); lia. }
      destruct Hxm as [Hx1 Hy1].
      split; [|constructor; [|exact Hl]];
        eapply compare_timevals_le_trans; eassumption. }
  destruct (Hmax (map sample_of cs) (now this)) as [Hx Hl].
  split; [|exact Hx].
  rewrite Forall_map in Hl. exact Hl.
Qed.

Lemma advancing_run_tracks_maximum_witness :
  let this := mk_TimeTracker (mk_timeval 5 0) (mk_timeval 100 0) in
  let cs := [ Call_is_timed_out_default (mk_timeval 103 0);
              Call_is_timed_out (mk_timeval 101 0) (mk_timeval 1 0);
              Call_is_timed_out_default (mk_timeval 102 7) ] in
  Forall always_advancing cs /\
  run_calls cs this =
    ([false; false; false], mk_TimeTracker (mk_timeval 5 0) (mk_timeval 103 0)) /\
  now (state_after (run_calls cs this)) =
    fold_left timeval_max (map sample_of cs) (now this).
Proof.
  intros this cs.
  assert (Hall : Forall always_advancing cs) by (repeat constructor).
  split; [exact Hall|]. split; [reflexivity|].
  exact (proj1 (advancing_run_tracks_maximum cs this Hall)).
Defined.

(** ** Setters and constructors *)

(** X10.  [set_now] overrides the checkpoint without any guard, so the next
    check is judged against the value just set and not against anything seen
    before: after [set_now a] (or the time-point overload, which sets whole
    seconds), a sample [b] not before [a] is accepted, becomes the
    checkpoint, and is reported as a timeout exactly when it is past [a] plus
    the timeout.  The timeout is not touched. *)
Theorem set_now_rearms (this : TimeTracker) (tp : time_point) (a b : timeval) :
  compare_timevals a b <= 0 ->
  (set_now a ;; is_timed_out_default b) this =
    (compare_timevals b (add_timevals a (timeout this)) >? 0,
     mk_TimeTracker (timeout this) b) /\
  (set_now a ;; is_timed_out_and_update_if_timed_out b) this =
    (if compare_timevals b (add_timevals a (timeout this)) >? 0
     then (true, mk_TimeTracker (timeout this) b)
     else (false, mk_TimeTracker (timeout this) a)) /\
  (a = mk_timeval (to_time_t tp) 0 ->
   (set_now_time_point tp ;; is_timed_out_default b) this =
     (set_now a ;; is_timed_out_default b) this) /\
  (set_now a ;; get_now) this = (a, mk_TimeTracker (timeout this) a).
Proof.
  intros Hab.
  assert (Hset : forall (A : Type) (k : M A),
            (set_now a ;; k) this = k (mk_TimeTracker (timeout this) a))
    by reflexivity.
  rewrite !Hset.
  split; [|split; [|split]].
  - rewrite is_timed_out_default_unfold, is_timed_out_advance by exact Hab.
    reflexivity.
  - rewrite update_if_timed_out_pass by exact Hab. cbn [now timeout].
    destruct (compare_timevals b _ >? 0); reflexivity.
  - intros ->. reflexivity.
  - reflexivity.
Qed.

Lemma set_now_rearms_witness :
  let this := mk_TimeTracker (mk_timeval 5 0) (mk_timeval 100 0) in
  let a := mk_timeval 50 0 in
  let b := mk_timeval 56 0 in
  compare_timevals a b <= 0 /\
  is_timed_out_default b this = (false, this) /\
  (set_now a ;; is_timed_out_default b) this =
    (true, mk_TimeTracker (mk_timeval 5 0) b).
Proof.
  intros this a b.
  assert (Hab : compare_timevals a b <= 0) by (vm_compute; discriminate).
  split; [exact Hab|]. split; [reflexivity|].
  exact (proj1 (set_now_rearms this (mk_time_point 0) a b Hab)).
Defined.

(** X19.  Each constructor builds the state that the default constructor
    followed by the matching setters builds, the two setters commute, and the
    default constructor is the zero case of the others. *)
Theorem constructors_as_setters
  (this : TimeTracker) (count : Z) (n : timeval) (tp : time_point) :
  TimeTracker_us_now count n =
    state_after ((set_timeout count ;; set_now n) TimeTracker_default) /\
  TimeTracker_us_time_point count tp =
    state_after ((set_timeout count ;; set_now_time_point tp) TimeTracker_default) /\
  state_after ((set_now n ;; set_timeout count) this) =
    state_after ((set_timeout count ;; set_now n) this) /\
  TimeTracker_timeval (returned (get_timeout (TimeTracker_us_now count n))) =
    state_after (set_timeout count TimeTracker_default) /\
  TimeTracker_default = TimeTracker_timeval (mk_timeval 0 0) /\
  TimeTracker_default = TimeTracker_u32 0 /\
  TimeTracker_default = TimeTracker_us_now 0 (mk_timeval 0 0) /\
  TimeTracker_default = TimeTracker_us_time_point 0 (mk_time_point 0).
Proof. repeat split. Qed.
